(** * sherlockPredict: the generated Python wrapper of the SystemDS builtin

    Source: src/main/python/systemds/operator/algorithm/builtin/sherlockPredict.py

    The wrapper packs its 31 arguments into a dict literal, reads the
    context of its first argument and calls the [Matrix] constructor with the
    operator name and the dict as named inputs.  Python objects have an
    identity, so the client state is an explicit store of handle objects and
    node objects addressed by their position of allocation; the wrapper is a
    computation in a state-and-exception monad over that store. *)

From stdpp Require Import base list strings option relations.

Open Scope string_scope.
Open Scope list_scope.

(** ** Results and exceptions *)

Inductive exn : Set :=
| AttributeError
| EvaluationError.

Inductive result (A : Type) : Type :=
| Ok (a : A)
| Raise (e : exn).

Arguments Ok {A} a.
Arguments Raise {A} e.

(** ** The data model *)

(** Identities.  A handle identity is the position of the handle object in
    the store, a node identity the position of the node object; a context is
    referenced, never owned. *)
Definition handle_id := nat.
Definition node_id := nat.
Definition context_id := nat.

(** The classes of value handles imported by the wrapper
    ([OperationNode] is their base class). *)
Inductive handle_class : Set :=
| MatrixCls
| FrameCls
| ScalarCls
| ListCls
| MultiReturnCls.

(** Modelled from the spec: [systemds.script_building.dag.OutputType] is
    imported by the wrapper but declared in another module; the output type
    tag has one value per variant of a value handle. *)
Inductive OutputType : Set :=
| MATRIX
| FRAME
| SCALAR
| LIST
| MULTI_RETURN.

#[global] Instance handle_class_eq_dec : EqDecision handle_class.
Proof. solve_decision. Defined.

#[global] Instance OutputType_eq_dec : EqDecision OutputType.
Proof. solve_decision. Defined.

(** *** Python dicts with string keys

    A dict keeps its keys in insertion order and holds every key once:
    storing under a key that is present replaces the value in place. *)
Definition dict := list (string * handle_id).

Fixpoint dict_setitem (k : string) (v : handle_id) (d : dict) : dict :=
  match d with
  | [] => [(k, v)]
  | (k', v') :: d' =>
      if String.eqb k k' then (k', v) :: d'
      else (k', v') :: dict_setitem k v d'
  end.

(** A dict display [{k1: v1, ..., kn: vn}] stores its items from left to
    right into an empty dict. *)
Definition dict_display (items : list (string * handle_id)) : dict :=
  foldl (fun d kv => dict_setitem kv.1 kv.2 d) [] items.

Fixpoint dict_getitem (k : string) (d : dict) : option handle_id :=
  match d with
  | [] => None
  | (k', v) :: d' => if String.eqb k k' then Some v else dict_getitem k d'
  end.

Definition dict_keys (d : dict) : list string := d.*1.

Definition dict_values (d : dict) : list handle_id := d.*2.

(** *** The signature of the wrapper (lines 32 to 62 of the source) *)

Inductive parameter_kind : Set :=
| POSITIONAL_OR_KEYWORD
| VAR_POSITIONAL
| KEYWORD_ONLY
| VAR_KEYWORD.

Record parameter : Set := {
  pname : string;
  annotation : option handle_class;
  kind : parameter_kind;
  has_default : bool
}.

Definition matrix_parameter (name : string) : parameter :=
  {| pname := name; annotation := Some MatrixCls;
     kind := POSITIONAL_OR_KEYWORD; has_default := false |}.

Definition sherlockPredict_signature : list parameter :=
  matrix_parameter <$>
    [ "X";
      "cW1"; "cb1"; "cW2"; "cb2"; "cW3"; "cb3";
      "wW1"; "wb1"; "wW2"; "wb2"; "wW3"; "wb3";
      "pW1"; "pb1"; "pW2"; "pb2"; "pW3"; "pb3";
      "sW1"; "sb1"; "sW2"; "sb2"; "sW3"; "sb3";
      "fW1"; "fb1"; "fW2"; "fb2"; "fW3"; "fb3" ].

Definition parameter_names : list string := pname <$> sherlockPredict_signature.

Section Client.

(** The concrete value a materialized handle holds (a matrix buffer, a
    frame, a scalar) is owned by the engine's wire format; the wrapper never
    looks at it. *)
Context {Data : Type}.

(** Modelled from the spec: the classes [Matrix] and [OperationNode] are
    imported from [systemds.operator], another module.  A value handle carries
    a reference to its context, an optional materialized value and an
    optional owning operation node; an operation node carries an operator
    name, named inputs, positional inputs and an output type tag. *)
Record ValueHandle : Type := {
  variant : handle_class;
  sds_context : context_id;
  materialized : option Data;
  pending : option node_id
}.

Record OperationNode : Set := {
  operation : string;
  named_input_nodes : dict;
  unnamed_input_nodes : list handle_id;
  output_type : OutputType
}.

(** The client state: the handle objects and the node objects in order of
    allocation, the trace of the attribute reads that wrapper code performs
    on handles, and the nodes submitted to the remote engine. *)
Record store : Type := {
  handles : list ValueHandle;
  nodes : list OperationNode;
  attr_reads : list (handle_id * string);
  executed : list node_id
}.

Definition M (A : Type) : Type := store -> result (A * store).

Definition ret {A} (a : A) : M A := fun s => Ok (a, s).

Definition bind {A B} (c : M A) (k : A -> M B) : M B :=
  fun s =>
    match c s with
    | Ok (a, s') => k a s'
    | Raise e => Raise e
    end.

Definition raise {A} (e : exn) : M A := fun _ => Raise e.

Notation "x <- c ;; k" := (bind c (fun x => k))
  (at level 100, c at next level, right associativity).

(** Object allocation: a new object gets an identity no live object has. *)
Definition new_node (n : OperationNode) : M node_id :=
  fun s =>
    Ok (length (nodes s),
        {| handles := handles s; nodes := nodes s ++ [n];
           attr_reads := attr_reads s; executed := executed s |}).

Definition new_handle (h : ValueHandle) : M handle_id :=
  fun s =>
    Ok (length (handles s),
        {| handles := handles s ++ [h]; nodes := nodes s;
           attr_reads := attr_reads s; executed := executed s |}).

(** The attribute read [obj.sds_context]. *)
Definition getattr_sds_context (obj : handle_id) : M context_id :=
  fun s =>
    match handles s !! obj with
    | Some h =>
        Ok (sds_context h,
            {| handles := handles s; nodes := nodes s;
               attr_reads := attr_reads s ++ [(obj, "sds_context")];
               executed := executed s |})
    | None => raise AttributeError s
    end.

(** Modelled from the spec: the constructor [Matrix(sds_context, operation,
    unnamed_input_nodes=None, named_input_nodes=None)] belongs to
    [systemds.operator].  It creates an operation node with the operator
    name, the inputs it was given (an omitted form is empty) and the Matrix
    output type tag, and a Matrix handle that references the context, holds
    no materialized value and is owned by the new node. *)
Definition Matrix (ctx : context_id) (op : string)
    (unnamed : option (list handle_id)) (named : option dict) : M handle_id :=
  n <- new_node {| operation := op;
                   named_input_nodes := default [] named;
                   unnamed_input_nodes := default [] unnamed;
                   output_type := MATRIX |} ;;
  new_handle {| variant := MatrixCls; sds_context := ctx;
                materialized := None; pending := Some n |}.

(** The wrapper, lines 32 to 67 of the source.  The dict is local to the
    call: the node is the only object that keeps it. *)
Definition sherlockPredict
    (X
     cW1 cb1 cW2 cb2 cW3 cb3
     wW1 wb1 wW2 wb2 wW3 wb3
     pW1 pb1 pW2 pb2 pW3 pb3
     sW1 sb1 sW2 sb2 sW3 sb3
     fW1 fb1 fW2 fb2 fW3 fb3 : handle_id) : M handle_id :=
  let params_dict :=
    dict_display
      [ ("X", X);
        ("cW1", cW1); ("cb1", cb1); ("cW2", cW2); ("cb2", cb2);
        ("cW3", cW3); ("cb3", cb3);
        ("wW1", wW1); ("wb1", wb1); ("wW2", wW2); ("wb2", wb2);
        ("wW3", wW3); ("wb3", wb3);
        ("pW1", pW1); ("pb1", pb1); ("pW2", pW2); ("pb2", pb2);
        ("pW3", pW3); ("pb3", pb3);
        ("sW1", sW1); ("sb1", sb1); ("sW2", sW2); ("sb2", sb2);
        ("sW3", sW3); ("sb3", sb3);
        ("fW1", fW1); ("fb1", fb1); ("fW2", fW2); ("fb2", fb2);
        ("fW3", fW3); ("fb3", fb3) ] in
  ctx <- getattr_sds_context X ;;
  Matrix ctx "sherlockPredict" None (Some params_dict).

(** Modelled from the spec: equality of handles is reference identity (two
    handles with identical contents are distinct); the classes that define
    it belong to [systemds.operator]. *)
Definition handle_eq (h1 h2 : handle_id) : bool := bool_decide (h1 = h2).

(** The invariant of a value handle: exactly one of its materialized value
    and its pending node is set. *)
Definition isMaterialized (h : ValueHandle) : bool :=
  match materialized h with Some _ => true | None => false end.

Definition isPending (h : ValueHandle) : bool :=
  match pending h with Some _ => true | None => false end.

Definition exactly_one_set (h : ValueHandle) : bool :=
  xorb (isMaterialized h) (isPending h).

Section Evaluation.

(** The remote engine is an opaque service: given the graph of the client
    and the node to evaluate it answers with a value, or reports an error. *)
Variable engine : list ValueHandle -> list OperationNode -> node_id -> option Data.

(** Modelled from the spec: [compute] of a value handle (section 4.1)
    belongs to [systemds.operator].  A materialized handle answers from its
    cache without a remote call; a pending one has its node evaluated by the
    engine, and on success stores the value and stops being pending. *)
Definition compute (h : handle_id) : M Data :=
  fun s =>
    match handles s !! h with
    | None => raise AttributeError s
    | Some vh =>
        match materialized vh, pending vh with
        | Some d, _ => ret d s
        | None, None => raise EvaluationError s
        | None, Some n =>
            match engine (handles s) (nodes s) n with
            | None => raise EvaluationError s
            | Some d =>
                Ok (d,
                    {| handles :=
                         <[h := {| variant := variant vh;
                                   sds_context := sds_context vh;
                                   materialized := Some d;
                                   pending := None |}]> (handles s);
                       nodes := nodes s;
                       attr_reads := attr_reads s;
                       executed := executed s ++ [n] |})
            end
        end
    end.

(** What client code can do with the wrapper and the handles it
    returns: call the wrapper, or request the computed value of a handle.
    A step is labelled with the handle whose value was requested. *)
Inductive client_step : option handle_id -> store -> store -> Prop :=
| step_sherlockPredict
    (X
     cW1 cb1 cW2 cb2 cW3 cb3
     wW1 wb1 wW2 wb2 wW3 wb3
     pW1 pb1 pW2 pb2 pW3 pb3
     sW1 sb1 sW2 sb2 sW3 sb3
     fW1 fb1 fW2 fb2 fW3 fb3 : handle_id) (s : store) (h : handle_id) (s' : store) :
    sherlockPredict X
      cW1 cb1 cW2 cb2 cW3 cb3
      wW1 wb1 wW2 wb2 wW3 wb3
      pW1 pb1 pW2 pb2 pW3 pb3
      sW1 sb1 sW2 sb2 sW3 sb3
      fW1 fb1 fW2 fb2 fW3 fb3 s = Ok (h, s') ->
    client_step None s s'
| step_compute (h : handle_id) (s : store) (d : Data) (s' : store) :
    compute h s = Ok (d, s') ->
    client_step (Some h) s s'.

(** One step of client code, whatever it is. *)
Definition any_step (s s' : store) : Prop :=
  exists l, client_step l s s'.

(** One step of client code that does not request the value of [h]. *)
Definition step_not_requesting (h : handle_id) (s s' : store) : Prop :=
  exists l, l <> Some h /\ client_step l s s'.

End Evaluation.

End Client.

Arguments ValueHandle : clear implicits.
Arguments store : clear implicits.

(** ** The declared types of the parameters, and what a call accepts *)

(** Strict typing as the specification words it: a call is accepted only
    if each of its 31 arguments is a handle of class Matrix. *)
Definition accepts_only_Matrix (Data : Type) : Prop :=
  forall (s : store Data)
    (X
     cW1 cb1 cW2 cb2 cW3 cb3
     wW1 wb1 wW2 wb2 wW3 wb3
     pW1 pb1 pW2 pb2 pW3 pb3
     sW1 sb1 sW2 sb2 sW3 sb3
     fW1 fb1 fW2 fb2 fW3 fb3 : handle_id) (h : handle_id) (s' : store Data),
    sherlockPredict X
      cW1 cb1 cW2 cb2 cW3 cb3
      wW1 wb1 wW2 wb2 wW3 wb3
      pW1 pb1 pW2 pb2 pW3 pb3
      sW1 sb1 sW2 sb2 sW3 sb3
      fW1 fb1 fW2 fb2 fW3 fb3 s = Ok (h, s') ->
    Forall (fun a => variant <$> handles s !! a = Some MatrixCls)
      [ X;
        cW1; cb1; cW2; cb2; cW3; cb3;
        wW1; wb1; wW2; wb2; wW3; wb3;
        pW1; pb1; pW2; pb2; pW3; pb3;
        sW1; sb1; sW2; sb2; sW3; sb3;
        fW1; fb1; fW2; fb2; fW3; fb3 ].

(** ** Concrete sessions *)

Definition matrix_leaf (ctx : context_id) (d : nat) : ValueHandle nat :=
  {| variant := MatrixCls; sds_context := ctx;
     materialized := Some d; pending := None |}.

Definition frame_leaf (ctx : context_id) (d : nat) : ValueHandle nat :=
  {| variant := FrameCls; sds_context := ctx;
     materialized := Some d; pending := None |}.

(** Thirty-one materialized matrices of context 0. *)
Definition session : store nat :=
  {| handles := matrix_leaf 0 <$> seq 0 31;
     nodes := []; attr_reads := []; executed := [] |}.

(** The same, but the second handle is a frame of context 1. *)
Definition mixed_session : store nat :=
  {| handles := matrix_leaf 0 0 :: frame_leaf 1 1 :: (matrix_leaf 0 <$> seq 2 29);
     nodes := []; attr_reads := []; executed := [] |}.

Definition example_arguments : list handle_id := seq 0 31.

(** The call [sherlockPredict(h0, h1, ..., h30)]. *)
Definition example_call : M (Data := nat) handle_id :=
  sherlockPredict 0
    1 2 3 4 5 6
    7 8 9 10 11 12
    13 14 15 16 17 18
    19 20 21 22 23 24
    25 26 27 28 29 30.

(** An engine that answers every request with the same value. *)
Definition constant_engine (d : nat) :
    list (ValueHandle nat) -> list OperationNode -> node_id -> option nat :=
  fun _ _ _ => Some d.

Definition store_after {A} (c : M (Data := nat) A) (s : store nat) : store nat :=
  match c s with
  | Ok (_, s') => s'
  | Raise _ => s
  end.

(** The session after the example call, and after the value of the handle
    the call returned has been requested. *)
Definition session_1 : store nat := store_after example_call session.

Definition session_2 : store nat :=
  store_after (compute (constant_engine 7) 31) session_1.

(** ** Sessions of wrapper calls *)

Section Sessions.

Context {Data : Type}.

(** A call of the wrapper in a session: each of the 31 arguments is a handle
    of the store (Python passes references to objects that exist), and the
    call returns. *)
Inductive wrapper_call : store Data -> store Data -> Prop :=
| wrapper_call_intro
    (X
     cW1 cb1 cW2 cb2 cW3 cb3
     wW1 wb1 wW2 wb2 wW3 wb3
     pW1 pb1 pW2 pb2 pW3 pb3
     sW1 sb1 sW2 sb2 sW3 sb3
     fW1 fb1 fW2 fb2 fW3 fb3 : handle_id)
    (s : store Data) (h : handle_id) (s' : store Data) :
    Forall (fun a => a < length (handles s))
      [ X;
        cW1; cb1; cW2; cb2; cW3; cb3;
        wW1; wb1; wW2; wb2; wW3; wb3;
        pW1; pb1; pW2; pb2; pW3; pb3;
        sW1; sb1; sW2; sb2; sW3; sb3;
        fW1; fb1; fW2; fb2; fW3; fb3 ] ->
    sherlockPredict X
      cW1 cb1 cW2 cb2 cW3 cb3
      wW1 wb1 wW2 wb2 wW3 wb3
      pW1 pb1 pW2 pb2 pW3 pb3
      sW1 sb1 sW2 sb2 sW3 sb3
      fW1 fb1 fW2 fb2 fW3 fb3 s = Ok (h, s') ->
    wrapper_call s s'.

(** All the inputs of a node, named and positional. *)
Definition node_inputs (node : OperationNode) : list handle_id :=
  dict_values (named_input_nodes node) ++ unnamed_input_nodes node.

(** Every handle satisfies the exactly-one-of invariant. *)
Definition handles_consistent (s : store Data) : Prop :=
  forall h vh, handles s !! h = Some vh -> exactly_one_set vh = true.

(** The node a pending handle is owned by exists. *)
Definition pending_live (s : store Data) : Prop :=
  forall h vh n,
    handles s !! h = Some vh -> pending vh = Some n ->
    n < length (nodes s).

(** The inputs of the node that owns a handle are older than the handle. *)
Definition inputs_older (s : store Data) : Prop :=
  forall h vh n node,
    handles s !! h = Some vh -> pending vh = Some n ->
    nodes s !! n = Some node ->
    Forall (fun a => a < h) (node_inputs node).

(** No node owns two handles. *)
Definition owns_unique (s : store Data) : Prop :=
  forall h1 h2 v1 v2 n,
    handles s !! h1 = Some v1 -> handles s !! h2 = Some v2 ->
    pending v1 = Some n -> pending v2 = Some n ->
    h1 = h2.

End Sessions.

(** The example call again, now on the handle the first call returned. *)
Definition chained_call : M (Data := nat) handle_id :=
  sherlockPredict 31
    1 2 3 4 5 6
    7 8 9 10 11 12
    13 14 15 16 17 18
    19 20 21 22 23 24
    25 26 27 28 29 30.

Definition session_chain : store nat := store_after chained_call session_1.

(** ** Properties of the wrapper *)

Section Properties.

Context {Data : Type}.

Implicit Types (s t : store Data) (vh : ValueHandle Data).

Section Call.

Variables
  (X
   cW1 cb1 cW2 cb2 cW3 cb3
   wW1 wb1 wW2 wb2 wW3 wb3
   pW1 pb1 pW2 pb2 pW3 pb3
   sW1 sb1 sW2 sb2 sW3 sb3
   fW1 fb1 fW2 fb2 fW3 fb3 : handle_id).

(** The call under study, its arguments in the order of the signature, and
    the items of the dict display in the order of the source text. *)
Local Abbreviation call :=
  (sherlockPredict (Data := Data) X
     cW1 cb1 cW2 cb2 cW3 cb3
     wW1 wb1 wW2 wb2 wW3 wb3
     pW1 pb1 pW2 pb2 pW3 pb3
     sW1 sb1 sW2 sb2 sW3 sb3
     fW1 fb1 fW2 fb2 fW3 fb3).

Local Abbreviation arguments :=
  [ X;
    cW1; cb1; cW2; cb2; cW3; cb3;
    wW1; wb1; wW2; wb2; wW3; wb3;
    pW1; pb1; pW2; pb2; pW3; pb3;
    sW1; sb1; sW2; sb2; sW3; sb3;
    fW1; fb1; fW2; fb2; fW3; fb3 ].

Local Abbreviation built_node :=
  {| operation := "sherlockPredict";
     named_input_nodes := zip parameter_names arguments;
     unnamed_input_nodes := [];
     output_type := MATRIX |}.

Local Abbreviation built_handle ctx n :=
  {| variant := MatrixCls; sds_context := ctx;
     materialized := None; pending := Some n |}.

(** The whole effect of a call whose first argument is a live handle. *)
Lemma sherlockPredict_run s hx :
  handles s !! X = Some hx ->
  call s =
    Ok (length (handles s),
        {| handles := handles s ++ [built_handle (sds_context hx) (length (nodes s))];
           nodes := nodes s ++ [built_node];
           attr_reads := attr_reads s ++ [(X, "sds_context")];
           executed := executed s |}).
Proof.
  intros HX. unfold sherlockPredict, bind, getattr_sds_context.
  rewrite HX. reflexivity.
Qed.

Lemma sherlockPredict_raises s :
  handles s !! X = None -> call s = Raise AttributeError.
Proof.
  intros HX. unfold sherlockPredict, bind, getattr_sds_context.
  now rewrite HX.
Qed.

(** The object allocated last is found at the identity it was given. *)
Lemma lookup_new {A} (l : list A) (x : A) : (l ++ [x]) !! length l = Some x.
Proof. now apply list_lookup_middle. Qed.

(** Objects allocated earlier keep their identity and their state. *)
Lemma lookup_old {A} (l : list A) (x y : A) (i : nat) :
  l !! i = Some y -> (l ++ [x]) !! i = Some y.
Proof. intros H. now apply lookup_app_l_Some. Qed.

Lemma parameter_names_NoDup : NoDup parameter_names.
Proof. apply (bool_decide_unpack _). vm_compute. exact I. Qed.

Lemma getitem_zip_names (i : nat) (name : string) (arg : handle_id) :
  parameter_names !! i = Some name ->
  arguments !! i = Some arg ->
  dict_getitem name (zip parameter_names arguments) = Some arg.
Proof.
  intros Hn Ha.
  do 31 (destruct i as [|i]; [cbv in Hn, Ha; simplify_eq; reflexivity|]).
  discriminate.
Qed.

(** C1: a call builds a named-input mapping whose keys are exactly the 31
    parameter names, each once, every key bound to the argument of the same
    name, and the operation node it constructs carries that mapping as its
    named inputs. *)
Theorem sherlockPredict_named_inputs s hx :
  handles s !! X = Some hx ->
  exists h s' vh n node,
    sherlockPredict X
      cW1 cb1 cW2 cb2 cW3 cb3
      wW1 wb1 wW2 wb2 wW3 wb3
      pW1 pb1 pW2 pb2 pW3 pb3
      sW1 sb1 sW2 sb2 sW3 sb3
      fW1 fb1 fW2 fb2 fW3 fb3 s = Ok (h, s') /\
    handles s' !! h = Some vh /\ pending vh = Some n /\
    nodes s' !! n = Some node /\
    dict_keys (named_input_nodes node) =
      [ "X";
        "cW1"; "cb1"; "cW2"; "cb2"; "cW3"; "cb3";
        "wW1"; "wb1"; "wW2"; "wb2"; "wW3"; "wb3";
        "pW1"; "pb1"; "pW2"; "pb2"; "pW3"; "pb3";
        "sW1"; "sb1"; "sW2"; "sb2"; "sW3"; "sb3";
        "fW1"; "fb1"; "fW2"; "fb2"; "fW3"; "fb3" ] /\
    length (named_input_nodes node) = 31 /\
    NoDup (dict_keys (named_input_nodes node)) /\
    (forall i name arg,
        parameter_names !! i = Some name ->
        arguments !! i = Some arg ->
        dict_getitem name (named_input_nodes node) = Some arg).
Proof.
  intros HX. eexists _, _, _, _, _.
  split; [exact (sherlockPredict_run s hx HX)|]. cbn [handles nodes].
  split; [apply lookup_new|]. split; [reflexivity|].
  split; [apply lookup_new|]. cbn [named_input_nodes].
  split; [reflexivity|]. split; [reflexivity|].
  split; [exact parameter_names_NoDup|].
  exact getitem_zip_names.
Qed.

(** C2: a call returns a single typed handle of class Matrix (not a
    MultiReturn), owned by a node whose output type tag is Matrix. *)
Theorem sherlockPredict_returns_Matrix s hx :
  handles s !! X = Some hx ->
  exists h s' vh n node,
    sherlockPredict X
      cW1 cb1 cW2 cb2 cW3 cb3
      wW1 wb1 wW2 wb2 wW3 wb3
      pW1 pb1 pW2 pb2 pW3 pb3
      sW1 sb1 sW2 sb2 sW3 sb3
      fW1 fb1 fW2 fb2 fW3 fb3 s = Ok (h, s') /\
    handles s' !! h = Some vh /\
    variant vh = MatrixCls /\ variant vh <> MultiReturnCls /\
    pending vh = Some n /\ nodes s' !! n = Some node /\
    output_type node = MATRIX.
Proof.
  intros HX. eexists _, _, _, _, _.
  split; [exact (sherlockPredict_run s hx HX)|]. cbn [handles nodes].
  split; [apply lookup_new|]. split; [reflexivity|]. split; [discriminate|].
  split; [reflexivity|]. split; [apply lookup_new|]. reflexivity.
Qed.

(** C4: the node a call constructs carries the operator name
    "sherlockPredict", and the call does nothing but construct: it allocates
    that node and the handle it returns, leaves every older object as it
    was, submits nothing to the engine and materializes no value. *)
Theorem sherlockPredict_operator_name s hx :
  handles s !! X = Some hx ->
  exists h s' vh n node,
    sherlockPredict X
      cW1 cb1 cW2 cb2 cW3 cb3
      wW1 wb1 wW2 wb2 wW3 wb3
      pW1 pb1 pW2 pb2 pW3 pb3
      sW1 sb1 sW2 sb2 sW3 sb3
      fW1 fb1 fW2 fb2 fW3 fb3 s = Ok (h, s') /\
    handles s' = handles s ++ [vh] /\ h = length (handles s) /\
    nodes s' = nodes s ++ [node] /\ n = length (nodes s) /\
    pending vh = Some n /\ materialized vh = None /\
    operation node = "sherlockPredict" /\
    executed s' = executed s.
Proof.
  intros HX. eexists _, _, _, _, _.
  split; [exact (sherlockPredict_run s hx HX)|]. cbn [handles nodes executed].
  repeat (split; [reflexivity|]). reflexivity.
Qed.

(** C5: the node a call constructs has a non-empty named-input mapping and
    an empty positional-input sequence. *)
Theorem sherlockPredict_named_only s hx :
  handles s !! X = Some hx ->
  exists h s' vh n node,
    sherlockPredict X
      cW1 cb1 cW2 cb2 cW3 cb3
      wW1 wb1 wW2 wb2 wW3 wb3
      pW1 pb1 pW2 pb2 pW3 pb3
      sW1 sb1 sW2 sb2 sW3 sb3
      fW1 fb1 fW2 fb2 fW3 fb3 s = Ok (h, s') /\
    handles s' !! h = Some vh /\ pending vh = Some n /\
    nodes s' !! n = Some node /\
    named_input_nodes node <> [] /\
    unnamed_input_nodes node = [].
Proof.
  intros HX. eexists _, _, _, _, _.
  split; [exact (sherlockPredict_run s hx HX)|]. cbn [handles nodes].
  split; [apply lookup_new|]. split; [reflexivity|].
  split; [apply lookup_new|]. split; [discriminate|]. reflexivity.
Qed.

(** C8: the context of the returned handle is the one read from the first
    argument X; that read is the only one the call performs, so the result is
    the same in every store that agrees on the context of X, whatever the
    contexts of the other arguments are, and no agreement of contexts is
    required for the call to succeed. *)
Theorem sherlockPredict_context_of_X s hx :
  handles s !! X = Some hx ->
  exists h s' vh,
    sherlockPredict X
      cW1 cb1 cW2 cb2 cW3 cb3
      wW1 wb1 wW2 wb2 wW3 wb3
      pW1 pb1 pW2 pb2 pW3 pb3
      sW1 sb1 sW2 sb2 sW3 sb3
      fW1 fb1 fW2 fb2 fW3 fb3 s = Ok (h, s') /\
    handles s' !! h = Some vh /\
    sds_context vh = sds_context hx /\
    attr_reads s' = attr_reads s ++ [(X, "sds_context")] /\
    (forall t,
        sds_context <$> handles t !! X = Some (sds_context hx) ->
        exists h' t' vh',
          sherlockPredict X
            cW1 cb1 cW2 cb2 cW3 cb3
            wW1 wb1 wW2 wb2 wW3 wb3
            pW1 pb1 pW2 pb2 pW3 pb3
            sW1 sb1 sW2 sb2 sW3 sb3
            fW1 fb1 fW2 fb2 fW3 fb3 t = Ok (h', t') /\
          handles t' !! h' = Some vh' /\
          sds_context vh' = sds_context vh).
Proof.
  intros HX. eexists _, _, _.
  split; [exact (sherlockPredict_run s hx HX)|]. cbn [handles attr_reads].
  split; [apply lookup_new|]. split; [reflexivity|]. split; [reflexivity|].
  intros t Ht. destruct (handles t !! X) as [ht|] eqn:HtX; [|discriminate].
  injection Ht as Hctx. eexists _, _, _.
  split; [exact (sherlockPredict_run t ht HtX)|]. cbn [handles].
  split; [apply lookup_new|]. exact Hctx.
Qed.

(** C9: a call modifies none of its arguments: the values of the
    named-input mapping are the argument handles themselves, the only
    attribute read is [X.sds_context], and every handle and every node that
    existed before the call is in the same state after it. *)
Theorem sherlockPredict_frame s hx :
  handles s !! X = Some hx ->
  exists h s' vh n node,
    sherlockPredict X
      cW1 cb1 cW2 cb2 cW3 cb3
      wW1 wb1 wW2 wb2 wW3 wb3
      pW1 pb1 pW2 pb2 pW3 pb3
      sW1 sb1 sW2 sb2 sW3 sb3
      fW1 fb1 fW2 fb2 fW3 fb3 s = Ok (h, s') /\
    handles s' !! h = Some vh /\ pending vh = Some n /\
    nodes s' !! n = Some node /\
    dict_values (named_input_nodes node) = arguments /\
    attr_reads s' = attr_reads s ++ [(X, "sds_context")] /\
    (forall a va, handles s !! a = Some va -> handles s' !! a = Some va) /\
    (forall m nd, nodes s !! m = Some nd -> nodes s' !! m = Some nd).
Proof.
  intros HX. eexists _, _, _, _, _.
  split; [exact (sherlockPredict_run s hx HX)|]. cbn [handles nodes attr_reads].
  split; [apply lookup_new|]. split; [reflexivity|].
  split; [apply lookup_new|]. split; [reflexivity|]. split; [reflexivity|].
  split; intros i y Hi; now apply lookup_old.
Qed.

(** C10: the node a call constructs depends on the arguments only: two
    calls with the same 31 arguments, in any two stores, construct nodes with
    the same operator name and the same named-input mapping, keys in the same
    order and bound to the same handles. *)
Theorem sherlockPredict_deterministic s t hs ht :
  handles s !! X = Some hs ->
  handles t !! X = Some ht ->
  exists h1 s' v1 n1 node1 h2 t' v2 n2 node2,
    sherlockPredict X
      cW1 cb1 cW2 cb2 cW3 cb3
      wW1 wb1 wW2 wb2 wW3 wb3
      pW1 pb1 pW2 pb2 pW3 pb3
      sW1 sb1 sW2 sb2 sW3 sb3
      fW1 fb1 fW2 fb2 fW3 fb3 s = Ok (h1, s') /\
    handles s' !! h1 = Some v1 /\ pending v1 = Some n1 /\
    nodes s' !! n1 = Some node1 /\
    sherlockPredict X
      cW1 cb1 cW2 cb2 cW3 cb3
      wW1 wb1 wW2 wb2 wW3 wb3
      pW1 pb1 pW2 pb2 pW3 pb3
      sW1 sb1 sW2 sb2 sW3 sb3
      fW1 fb1 fW2 fb2 fW3 fb3 t = Ok (h2, t') /\
    handles t' !! h2 = Some v2 /\ pending v2 = Some n2 /\
    nodes t' !! n2 = Some node2 /\
    operation node1 = operation node2 /\
    named_input_nodes node1 = named_input_nodes node2 /\
    named_input_nodes node1 = zip parameter_names arguments.
Proof.
  intros Hs Ht. eexists _, _, _, _, _, _, _, _, _, _.
  split; [exact (sherlockPredict_run s hs Hs)|]. cbn [handles nodes].
  split; [apply lookup_new|]. split; [reflexivity|].
  split; [apply lookup_new|].
  split; [exact (sherlockPredict_run t ht Ht)|]. cbn [handles nodes].
  split; [apply lookup_new|]. split; [reflexivity|].
  split; [apply lookup_new|].
  split; [reflexivity|]. split; reflexivity.
Qed.

(** A call that returns has read the context of a live first argument. *)
Lemma sherlockPredict_inv s h s' :
  call s = Ok (h, s') ->
  exists hx,
    handles s !! X = Some hx /\
    h = length (handles s) /\
    s' = {| handles := handles s ++ [built_handle (sds_context hx) (length (nodes s))];
            nodes := nodes s ++ [built_node];
            attr_reads := attr_reads s ++ [(X, "sds_context")];
            executed := executed s |}.
Proof.
  intros Hcall. destruct (handles s !! X) as [hx|] eqn:HX.
  - rewrite (sherlockPredict_run s hx HX) in Hcall.
    injection Hcall as <- <-. now exists hx.
  - rewrite (sherlockPredict_raises s HX) in Hcall. discriminate.
Qed.

End Call.

(** *** The store along the steps of client code *)

Section Steps.

Variable engine :
  list (ValueHandle Data) -> list OperationNode -> node_id -> option Data.

(** What a successful [compute] does to the store. *)
Lemma compute_inv h s d s' :
  compute engine h s = Ok (d, s') ->
  exists vh,
    handles s !! h = Some vh /\
    ((materialized vh = Some d /\ s' = s) \/
     (exists n,
        materialized vh = None /\ pending vh = Some n /\
        engine (handles s) (nodes s) n = Some d /\
        s' = {| handles :=
                  <[h := {| variant := variant vh;
                            sds_context := sds_context vh;
                            materialized := Some d;
                            pending := None |}]> (handles s);
                nodes := nodes s;
                attr_reads := attr_reads s;
                executed := executed s ++ [n] |})).
Proof.
  unfold compute. intros Hc.
  destruct (handles s !! h) as [vh|]; [|discriminate].
  exists vh. split; [reflexivity|].
  destruct (materialized vh) as [d'|].
  - injection Hc as -> ->. now left.
  - destruct (pending vh) as [n|]; [|discriminate].
    destruct (engine (handles s) (nodes s) n) as [d'|] eqn:He; [|discriminate].
    injection Hc as -> <-. right. now exists n.
Qed.

(** Handles are never deallocated. *)
Lemma client_step_handles_length l s s' :
  client_step engine l s s' -> length (handles s) <= length (handles s').
Proof.
  intros [? ? ? ? ? ? ? ? ? ? ? ? ? ? ? ? ? ? ? ? ? ? ? ? ? ? ? ? ? ? ? ? ? ? Hc
         |h ? d ? Hc].
  - apply sherlockPredict_inv in Hc as (hx & _ & _ & ->). cbn.
    rewrite length_app. lia.
  - apply compute_inv in Hc as (vh & _ & [[_ ->]|(n & _ & _ & _ & ->)]); cbn.
    + lia.
    + rewrite length_insert. lia.
Qed.

(** Nodes are never mutated after creation. *)
Lemma client_step_nodes l s s' n node :
  client_step engine l s s' ->
  nodes s !! n = Some node -> nodes s' !! n = Some node.
Proof.
  intros [? ? ? ? ? ? ? ? ? ? ? ? ? ? ? ? ? ? ? ? ? ? ? ? ? ? ? ? ? ? ? ? ? ? Hc
         |h ? d ? Hc] Hn.
  - apply sherlockPredict_inv in Hc as (hx & _ & _ & ->). cbn.
    now apply lookup_old.
  - apply compute_inv in Hc as (vh & _ & [[_ ->]|(m & _ & _ & _ & ->)]); exact Hn.
Qed.

(** Only the handle whose value is requested changes state. *)
Lemma client_step_unrequested l s s' h vh :
  client_step engine l s s' -> l <> Some h ->
  handles s !! h = Some vh -> handles s' !! h = Some vh.
Proof.
  intros [? ? ? ? ? ? ? ? ? ? ? ? ? ? ? ? ? ? ? ? ? ? ? ? ? ? ? ? ? ? ? ? ? ? Hc
         |h' ? d ? Hc] Hl Hh.
  - apply sherlockPredict_inv in Hc as (hx & _ & _ & ->). cbn.
    now apply lookup_old.
  - apply compute_inv in Hc as (vh' & _ & [[_ ->]|(m & _ & _ & _ & ->)]).
    + exact Hh.
    + cbn. rewrite list_lookup_insert_ne; [exact Hh|congruence].
Qed.

(** A handle keeps its class and its context for life. *)
Lemma client_step_context l s s' h vh :
  client_step engine l s s' ->
  handles s !! h = Some vh ->
  exists vh',
    handles s' !! h = Some vh' /\
    variant vh' = variant vh /\ sds_context vh' = sds_context vh.
Proof.
  intros Hstep Hh. destruct (decide (l = Some h)) as [->|Hl].
  - inversion Hstep as [|h' s0 d s0' Hc]; subst.
    apply compute_inv in Hc as (vh0 & Hvh0 & [[_ ->]|(m & _ & _ & _ & ->)]).
    + now exists vh.
    + pose proof (eq_trans (eq_sym Hvh0) Hh) as E. injection E as ->.
      eexists. split.
      { cbn. apply list_lookup_insert_eq. now apply lookup_lt_Some in Hh. }
      split; reflexivity.
  - exists vh. split; [|split; reflexivity].
    exact (client_step_unrequested _ _ _ _ _ Hstep Hl Hh).
Qed.

Lemma steps_context s s' h vh :
  rtc (any_step engine) s s' ->
  handles s !! h = Some vh ->
  exists vh',
    handles s' !! h = Some vh' /\
    variant vh' = variant vh /\ sds_context vh' = sds_context vh.
Proof.
  intros Hsteps. revert vh.
  induction Hsteps as [|s1 s2 s3 [l Hstep] _ IH]; intros vh Hh.
  - now exists vh.
  - destruct (client_step_context _ _ _ _ _ Hstep Hh) as (vh2 & H2 & Hv2 & Hc2).
    destruct (IH _ H2) as (vh3 & H3 & Hv3 & Hc3).
    exists vh3. split; [exact H3|]. split; congruence.
Qed.

Lemma steps_handles_length s s' :
  rtc (any_step engine) s s' -> length (handles s) <= length (handles s').
Proof.
  induction 1 as [|s1 s2 s3 [l Hstep] _ IH]; [lia|].
  apply client_step_handles_length in Hstep. lia.
Qed.

Lemma steps_nodes s s' n node :
  rtc (any_step engine) s s' ->
  nodes s !! n = Some node -> nodes s' !! n = Some node.
Proof.
  induction 1 as [|s1 s2 s3 [l Hstep] _ IH]; [trivial|].
  intros Hn. apply IH. exact (client_step_nodes _ _ _ _ _ Hstep Hn).
Qed.

Lemma steps_nodes_length s s' :
  rtc (any_step engine) s s' -> length (nodes s) <= length (nodes s').
Proof.
  intros Hsteps. destruct (decide (length (nodes s) <= length (nodes s'))) as [|Hlt]; [trivial|].
  destruct (nodes s) as [|x l] eqn:E using rev_ind; [cbn; lia|].
  pose proof (steps_nodes s s' (length l) x Hsteps) as Hn.
  rewrite E, lookup_new in Hn. specialize (Hn eq_refl).
  apply lookup_lt_Some in Hn. rewrite length_app in Hlt. cbn in Hlt. lia.
Qed.

Lemma steps_unrequested h s s' vh :
  rtc (step_not_requesting engine h) s s' ->
  handles s !! h = Some vh -> handles s' !! h = Some vh.
Proof.
  induction 1 as [|s1 s2 s3 (l & Hl & Hstep) _ IH]; [trivial|].
  intros Hh. apply IH. exact (client_step_unrequested _ _ _ _ _ Hstep Hl Hh).
Qed.

End Steps.

(** *** A returned handle along the steps of client code *)

Section Lifetime.

Variable engine :
  list (ValueHandle Data) -> list OperationNode -> node_id -> option Data.

Variables
  (X
   cW1 cb1 cW2 cb2 cW3 cb3
   wW1 wb1 wW2 wb2 wW3 wb3
   pW1 pb1 pW2 pb2 pW3 pb3
   sW1 sb1 sW2 sb2 sW3 sb3
   fW1 fb1 fW2 fb2 fW3 fb3 : handle_id).

(** C3: a call computes nothing and submits nothing to the engine: the
    handle it returns is pending (an owning node, no materialized value,
    exactly one of the two set), no older handle changes state, and the
    returned handle stays as it is through every sequence of client steps
    that does not request its value; a request that the engine answers
    materializes it. *)
Theorem sherlockPredict_pending s hx :
  handles s !! X = Some hx ->
  exists h s' vh n node,
    sherlockPredict X
      cW1 cb1 cW2 cb2 cW3 cb3
      wW1 wb1 wW2 wb2 wW3 wb3
      pW1 pb1 pW2 pb2 pW3 pb3
      sW1 sb1 sW2 sb2 sW3 sb3
      fW1 fb1 fW2 fb2 fW3 fb3 s = Ok (h, s') /\
    handles s' !! h = Some vh /\
    materialized vh = None /\ pending vh = Some n /\
    exactly_one_set vh = true /\
    nodes s' !! n = Some node /\
    executed s' = executed s /\
    (forall a va, handles s !! a = Some va -> handles s' !! a = Some va) /\
    (forall s'',
        rtc (step_not_requesting engine h) s' s'' ->
        handles s'' !! h = Some vh /\
        (forall d s3,
            compute engine h s'' = Ok (d, s3) ->
            exists vh3,
              handles s3 !! h = Some vh3 /\
              materialized vh3 = Some d /\ pending vh3 = None /\
              executed s3 = executed s'' ++ [n])).
Proof.
  intros HX. eexists _, _, _, _, _.
  split; [exact (sherlockPredict_run _ _ _ _ _ _ _ _ _ _ _ _ _ _ _ _ _ _ _ _
                   _ _ _ _ _ _ _ _ _ _ _ s hx HX)|].
  cbn [handles nodes executed].
  split; [apply lookup_new|]. split; [reflexivity|]. split; [reflexivity|].
  split; [reflexivity|]. split; [apply lookup_new|]. split; [reflexivity|].
  split; [intros a va Ha; now apply lookup_old|].
  intros s'' Hsteps.
  assert (Hh : handles s'' !! length (handles s) =
               Some {| variant := MatrixCls; sds_context := sds_context hx;
                       materialized := None;
                       pending := Some (length (nodes s)) |}).
  { apply (steps_unrequested engine _ _ _ _ Hsteps). cbn. apply lookup_new. }
  split; [exact Hh|].
  intros d s3 Hc.
  apply compute_inv in Hc as (vh & Hvh & [[Hm _]|(n & _ & Hp & _ & ->)]);
    pose proof (eq_trans (eq_sym Hvh) Hh) as Evh; injection Evh as ->;
    cbn in *; [discriminate|].
  injection Hp as <-. eexists. split.
  { apply list_lookup_insert_eq. now apply lookup_lt_Some in Hh. }
  cbn. split; [reflexivity|]. split; reflexivity.
Qed.

(** C6: two calls with the same arguments, whatever client code runs
    between them, return two distinct handles owned by two distinct nodes,
    although the two nodes have the same operator, inputs and type: nothing
    is merged at construction, and equality of handles is identity. *)
Theorem sherlockPredict_no_sharing s h1 s1 s1' :
  sherlockPredict X
    cW1 cb1 cW2 cb2 cW3 cb3
    wW1 wb1 wW2 wb2 wW3 wb3
    pW1 pb1 pW2 pb2 pW3 pb3
    sW1 sb1 sW2 sb2 sW3 sb3
    fW1 fb1 fW2 fb2 fW3 fb3 s = Ok (h1, s1) ->
  rtc (any_step engine) s1 s1' ->
  exists v1 n1 h2 s2 v2 n2 node,
    handles s1 !! h1 = Some v1 /\ pending v1 = Some n1 /\
    sherlockPredict X
      cW1 cb1 cW2 cb2 cW3 cb3
      wW1 wb1 wW2 wb2 wW3 wb3
      pW1 pb1 pW2 pb2 pW3 pb3
      sW1 sb1 sW2 sb2 sW3 sb3
      fW1 fb1 fW2 fb2 fW3 fb3 s1' = Ok (h2, s2) /\
    handles s2 !! h2 = Some v2 /\ pending v2 = Some n2 /\
    h1 <> h2 /\ handle_eq h1 h2 = false /\
    n1 <> n2 /\
    nodes s2 !! n1 = Some node /\ nodes s2 !! n2 = Some node /\
    variant v1 = variant v2 /\ sds_context v1 = sds_context v2 /\
    materialized v1 = materialized v2.
Proof.
  intros Hcall Hsteps.
  apply sherlockPredict_inv in Hcall as (hx & HX & -> & ->).
  pose proof (steps_handles_length engine _ _ Hsteps) as Hlen.
  pose proof (steps_nodes_length engine _ _ Hsteps) as Hnlen.
  pose proof (steps_nodes engine _ _ (length (nodes s)) _ Hsteps
                (lookup_new _ _)) as Hnode.
  cbn [handles nodes] in Hlen, Hnlen, Hnode.
  rewrite length_app in Hlen, Hnlen. cbn in Hlen, Hnlen.
  destruct (steps_context engine _ _ X hx Hsteps (lookup_old _ _ _ _ HX))
    as (hx' & HX' & _ & Hctx).
  eexists _, _, _, _, _, _, _.
  split; [apply lookup_new|]. split; [reflexivity|].
  split; [exact (sherlockPredict_run _ _ _ _ _ _ _ _ _ _ _ _ _ _ _ _ _ _ _ _
                   _ _ _ _ _ _ _ _ _ _ _ s1' hx' HX')|].
  cbn [handles nodes].
  split; [apply lookup_new|]. split; [reflexivity|].
  split; [lia|]. split; [apply bool_decide_eq_false; lia|].
  split; [lia|].
  split; [apply lookup_old; exact Hnode|]. split; [apply lookup_new|].
  split; [reflexivity|]. split; [symmetry; exact Hctx|]. reflexivity.
Qed.

End Lifetime.

End Properties.

(** C7 (as stated, refuted): a call whose second argument is a handle of
    class Frame returns normally, so a call does not accept Matrix handles
    only. *)
Lemma sherlockPredict_accepts_Frame :
  variant <$> handles mixed_session !! 1 = Some FrameCls /\
  example_call mixed_session = Ok (31, store_after example_call mixed_session) /\
  ~ accepts_only_Matrix nat.
Proof.
  split; [reflexivity|]. split; [reflexivity|].
  intros Hclaim.
  specialize (Hclaim mixed_session
                0 1 2 3 4 5 6 7 8 9 10 11 12 13 14 15 16 17 18 19 20
                21 22 23 24 25 26 27 28 29 30 _ _ eq_refl).
  apply Forall_cons in Hclaim as [_ Hclaim].
  apply Forall_cons in Hclaim as [Hframe _].
  discriminate Hframe.
Qed.

(** C7 (as amended): each of the 31 parameters is declared with the
    annotation Matrix, as a plain named parameter without default, and the
    signature has no variadic parameter; the annotations are not checked when
    the wrapper is called: a call returns exactly when its first argument is
    a live handle, whatever the classes of the arguments. *)
Theorem sherlockPredict_declared_Matrix :
  length sherlockPredict_signature = 31 /\
  pname <$> sherlockPredict_signature =
    [ "X";
      "cW1"; "cb1"; "cW2"; "cb2"; "cW3"; "cb3";
      "wW1"; "wb1"; "wW2"; "wb2"; "wW3"; "wb3";
      "pW1"; "pb1"; "pW2"; "pb2"; "pW3"; "pb3";
      "sW1"; "sb1"; "sW2"; "sb2"; "sW3"; "sb3";
      "fW1"; "fb1"; "fW2"; "fb2"; "fW3"; "fb3" ] /\
  Forall (fun p => annotation p = Some MatrixCls /\
                   kind p = POSITIONAL_OR_KEYWORD /\
                   has_default p = false) sherlockPredict_signature /\
  forall (Data : Type) (s : store Data)
    (X
     cW1 cb1 cW2 cb2 cW3 cb3
     wW1 wb1 wW2 wb2 wW3 wb3
     pW1 pb1 pW2 pb2 pW3 pb3
     sW1 sb1 sW2 sb2 sW3 sb3
     fW1 fb1 fW2 fb2 fW3 fb3 : handle_id),
    is_Some (handles s !! X) <->
    exists h s',
      sherlockPredict X
        cW1 cb1 cW2 cb2 cW3 cb3
        wW1 wb1 wW2 wb2 wW3 wb3
        pW1 pb1 pW2 pb2 pW3 pb3
        sW1 sb1 sW2 sb2 sW3 sb3
        fW1 fb1 fW2 fb2 fW3 fb3 s = Ok (h, s').
Proof.
  split; [reflexivity|]. split; [reflexivity|].
  split.
  { unfold sherlockPredict_signature. apply Forall_fmap, Forall_forall.
    intros name _. repeat split. }
  intros Data s X. intros. split.
  - intros [hx HX]. eexists _, _. now apply sherlockPredict_run with (hx := hx).
  - intros (h & s' & Hcall).
    apply sherlockPredict_inv in Hcall as (hx & HX & _). now exists hx.
Qed.

(** ** The theorems at the concrete sessions *)

Lemma sherlockPredict_named_inputs_witness :
  handles session !! 0 = Some (matrix_leaf 0 0) /\
  exists h s' vh n node,
    example_call session = Ok (h, s') /\
    handles s' !! h = Some vh /\ pending vh = Some n /\
    nodes s' !! n = Some node /\
    dict_keys (named_input_nodes node) =
      [ "X";
        "cW1"; "cb1"; "cW2"; "cb2"; "cW3"; "cb3";
        "wW1"; "wb1"; "wW2"; "wb2"; "wW3"; "wb3";
        "pW1"; "pb1"; "pW2"; "pb2"; "pW3"; "pb3";
        "sW1"; "sb1"; "sW2"; "sb2"; "sW3"; "sb3";
        "fW1"; "fb1"; "fW2"; "fb2"; "fW3"; "fb3" ] /\
    length (named_input_nodes node) = 31 /\
    NoDup (dict_keys (named_input_nodes node)) /\
    (forall i name arg,
        parameter_names !! i = Some name ->
        example_arguments !! i = Some arg ->
        dict_getitem name (named_input_nodes node) = Some arg).
Proof.
  split; [reflexivity|].
  exact (sherlockPredict_named_inputs
           0 1 2 3 4 5 6 7 8 9 10 11 12 13 14 15 16 17 18 19 20
           21 22 23 24 25 26 27 28 29 30
           session (matrix_leaf 0 0) eq_refl).
Defined.

Lemma sherlockPredict_returns_Matrix_witness :
  handles session !! 0 = Some (matrix_leaf 0 0) /\
  exists h s' vh n node,
    example_call session = Ok (h, s') /\
    handles s' !! h = Some vh /\
    variant vh = MatrixCls /\ variant vh <> MultiReturnCls /\
    pending vh = Some n /\ nodes s' !! n = Some node /\
    output_type node = MATRIX.
Proof.
  split; [reflexivity|].
  exact (sherlockPredict_returns_Matrix
           0 1 2 3 4 5 6 7 8 9 10 11 12 13 14 15 16 17 18 19 20
           21 22 23 24 25 26 27 28 29 30
           session (matrix_leaf 0 0) eq_refl).
Defined.

Lemma sherlockPredict_operator_name_witness :
  handles session !! 0 = Some (matrix_leaf 0 0) /\
  exists h s' vh n node,
    example_call session = Ok (h, s') /\
    handles s' = handles session ++ [vh] /\ h = length (handles session) /\
    nodes s' = nodes session ++ [node] /\ n = length (nodes session) /\
    pending vh = Some n /\ materialized vh = None /\
    operation node = "sherlockPredict" /\
    executed s' = executed session.
Proof.
  split; [reflexivity|].
  exact (sherlockPredict_operator_name
           0 1 2 3 4 5 6 7 8 9 10 11 12 13 14 15 16 17 18 19 20
           21 22 23 24 25 26 27 28 29 30
           session (matrix_leaf 0 0) eq_refl).
Defined.

Lemma sherlockPredict_named_only_witness :
  handles session !! 0 = Some (matrix_leaf 0 0) /\
  exists h s' vh n node,
    example_call session = Ok (h, s') /\
    handles s' !! h = Some vh /\ pending vh = Some n /\
    nodes s' !! n = Some node /\
    named_input_nodes node <> [] /\
    unnamed_input_nodes node = [].
Proof.
  split; [reflexivity|].
  exact (sherlockPredict_named_only
           0 1 2 3 4 5 6 7 8 9 10 11 12 13 14 15 16 17 18 19 20
           21 22 23 24 25 26 27 28 29 30
           session (matrix_leaf 0 0) eq_refl).
Defined.

(** In [mixed_session] the first argument is in context 0 and the second in
    context 1: the call returns a handle of context 0. *)
Lemma sherlockPredict_context_of_X_witness :
  handles mixed_session !! 0 = Some (matrix_leaf 0 0) /\
  sds_context <$> handles mixed_session !! 1 = Some 1 /\
  exists h s' vh,
    example_call mixed_session = Ok (h, s') /\
    handles s' !! h = Some vh /\
    sds_context vh = 0 /\
    attr_reads s' = attr_reads mixed_session ++ [(0, "sds_context")] /\
    (forall t,
        sds_context <$> handles t !! 0 = Some 0 ->
        exists h' t' vh',
          example_call t = Ok (h', t') /\
          handles t' !! h' = Some vh' /\
          sds_context vh' = sds_context vh).
Proof.
  split; [reflexivity|]. split; [reflexivity|].
  exact (sherlockPredict_context_of_X
           0 1 2 3 4 5 6 7 8 9 10 11 12 13 14 15 16 17 18 19 20
           21 22 23 24 25 26 27 28 29 30
           mixed_session (matrix_leaf 0 0) eq_refl).
Defined.

Lemma sherlockPredict_frame_witness :
  handles session !! 0 = Some (matrix_leaf 0 0) /\
  exists h s' vh n node,
    example_call session = Ok (h, s') /\
    handles s' !! h = Some vh /\ pending vh = Some n /\
    nodes s' !! n = Some node /\
    dict_values (named_input_nodes node) = example_arguments /\
    attr_reads s' = attr_reads session ++ [(0, "sds_context")] /\
    (forall a va, handles session !! a = Some va -> handles s' !! a = Some va) /\
    (forall m nd, nodes session !! m = Some nd -> nodes s' !! m = Some nd).
Proof.
  split; [reflexivity|].
  exact (sherlockPredict_frame
           0 1 2 3 4 5 6 7 8 9 10 11 12 13 14 15 16 17 18 19 20
           21 22 23 24 25 26 27 28 29 30
           session (matrix_leaf 0 0) eq_refl).
Defined.

(** The same call in two different stores. *)
Lemma sherlockPredict_deterministic_witness :
  handles session !! 0 = Some (matrix_leaf 0 0) /\
  handles mixed_session !! 0 = Some (matrix_leaf 0 0) /\
  exists h1 s' v1 n1 node1 h2 t' v2 n2 node2,
    example_call session = Ok (h1, s') /\
    handles s' !! h1 = Some v1 /\ pending v1 = Some n1 /\
    nodes s' !! n1 = Some node1 /\
    example_call mixed_session = Ok (h2, t') /\
    handles t' !! h2 = Some v2 /\ pending v2 = Some n2 /\
    nodes t' !! n2 = Some node2 /\
    operation node1 = operation node2 /\
    named_input_nodes node1 = named_input_nodes node2 /\
    named_input_nodes node1 = zip parameter_names example_arguments.
Proof.
  split; [reflexivity|]. split; [reflexivity|].
  exact (sherlockPredict_deterministic
           0 1 2 3 4 5 6 7 8 9 10 11 12 13 14 15 16 17 18 19 20
           21 22 23 24 25 26 27 28 29 30
           session mixed_session (matrix_leaf 0 0) (matrix_leaf 0 0)
           eq_refl eq_refl).
Defined.

Lemma sherlockPredict_pending_witness :
  handles session !! 0 = Some (matrix_leaf 0 0) /\
  exists h s' vh n node,
    example_call session = Ok (h, s') /\
    handles s' !! h = Some vh /\
    materialized vh = None /\ pending vh = Some n /\
    exactly_one_set vh = true /\
    nodes s' !! n = Some node /\
    executed s' = executed session /\
    (forall a va, handles session !! a = Some va -> handles s' !! a = Some va) /\
    (forall s'',
        rtc (step_not_requesting (constant_engine 7) h) s' s'' ->
        handles s'' !! h = Some vh /\
        (forall d s3,
            compute (constant_engine 7) h s'' = Ok (d, s3) ->
            exists vh3,
              handles s3 !! h = Some vh3 /\
              materialized vh3 = Some d /\ pending vh3 = None /\
              executed s3 = executed s'' ++ [n])).
Proof.
  split; [reflexivity|].
  exact (sherlockPredict_pending (constant_engine 7)
           0 1 2 3 4 5 6 7 8 9 10 11 12 13 14 15 16 17 18 19 20
           21 22 23 24 25 26 27 28 29 30
           session (matrix_leaf 0 0) eq_refl).
Defined.

(** Between the two calls the value of the first handle is requested. *)
Lemma sherlockPredict_no_sharing_witness :
  example_call session = Ok (31, session_1) /\
  rtc (any_step (constant_engine 7)) session_1 session_2 /\
  exists v1 n1 h2 s2 v2 n2 node,
    handles session_1 !! 31 = Some v1 /\ pending v1 = Some n1 /\
    example_call session_2 = Ok (h2, s2) /\
    handles s2 !! h2 = Some v2 /\ pending v2 = Some n2 /\
    31 <> h2 /\ handle_eq 31 h2 = false /\
    n1 <> n2 /\
    nodes s2 !! n1 = Some node /\ nodes s2 !! n2 = Some node /\
    variant v1 = variant v2 /\ sds_context v1 = sds_context v2 /\
    materialized v1 = materialized v2.
Proof.
  assert (Hcall : example_call session = Ok (31, session_1)) by reflexivity.
  assert (Hsteps : rtc (any_step (constant_engine 7)) session_1 session_2).
  { apply rtc_once. exists (Some 31).
    apply (step_compute (constant_engine 7) 31 session_1 7 session_2).
    reflexivity. }
  split; [exact Hcall|]. split; [exact Hsteps|].
  exact (sherlockPredict_no_sharing (constant_engine 7)
           0 1 2 3 4 5 6 7 8 9 10 11 12 13 14 15 16 17 18 19 20
           21 22 23 24 25 26 27 28 29 30
           session 31 session_1 session_2 Hcall Hsteps).
Defined.

(** ** The dict display of the wrapper *)

Lemma dict_getitem_app (k : string) (d1 d2 : dict) :
  dict_getitem k (d1 ++ d2) =
    match dict_getitem k d1 with
    | Some v => Some v
    | None => dict_getitem k d2
    end.
Proof.
  induction d1 as [|[k1 v1] d1 IH]; [reflexivity|].
  cbn. destruct (String.eqb k k1); [reflexivity|exact IH].
Qed.

Lemma dict_getitem_None (k : string) (d : dict) :
  dict_getitem k d = None <-> k ∉ dict_keys d.
Proof.
  induction d as [|[k1 v1] d IH]; cbn.
  - split; [intros _; apply not_elem_of_nil|reflexivity].
  - rewrite not_elem_of_cons. destruct (String.eqb_spec k k1) as [->|Hne].
    + split; [discriminate|]. intros [Hk _]. now destruct Hk.
    + rewrite IH. tauto.
Qed.

(** Storing under a new key appends the item; storing under a present key
    keeps the keys as they are. *)
Lemma dict_setitem_new (k : string) (v : handle_id) (d : dict) :
  k ∉ dict_keys d -> dict_setitem k v d = d ++ [(k, v)].
Proof.
  induction d as [|[k1 v1] d IH]; cbn; [reflexivity|].
  rewrite not_elem_of_cons. intros [Hne Hk].
  destruct (String.eqb_spec k k1) as [->|_]; [now destruct Hne|].
  now rewrite IH.
Qed.

Lemma dict_setitem_keys (k : string) (v : handle_id) (d : dict) :
  dict_keys (dict_setitem k v d) =
    if bool_decide (k ∈ dict_keys d) then dict_keys d else dict_keys d ++ [k].
Proof.
  induction d as [|[k1 v1] d IH]; cbn.
  - rewrite bool_decide_eq_false_2; [reflexivity|apply not_elem_of_nil].
  - destruct (String.eqb_spec k k1) as [->|Hne]; cbn.
    + rewrite bool_decide_eq_true_2; [reflexivity|apply list_elem_of_here].
    + unfold dict_keys in IH. rewrite IH.
      destruct (decide (k ∈ d.*1)) as [Hin|Hout].
      * rewrite !bool_decide_eq_true_2; [reflexivity| |exact Hin].
        now apply list_elem_of_further.
      * rewrite !bool_decide_eq_false_2; [reflexivity| |exact Hout].
        rewrite not_elem_of_cons. now split.
Qed.

Lemma dict_setitem_NoDup (k : string) (v : handle_id) (d : dict) :
  NoDup (dict_keys d) -> NoDup (dict_keys (dict_setitem k v d)).
Proof.
  intros Hd. rewrite dict_setitem_keys. case_bool_decide as Hk; [exact Hd|].
  apply NoDup_app. split; [exact Hd|]. split.
  - intros x Hx Hx'. apply list_elem_of_singleton in Hx'. now subst.
  - apply NoDup_singleton.
Qed.

Lemma dict_getitem_after_setitem (k k' : string) (v : handle_id) (d : dict) :
  dict_getitem k' (dict_setitem k v d) =
    if String.eqb k' k then Some v else dict_getitem k' d.
Proof.
  induction d as [|[k1 v1] d IH]; cbn.
  - now destruct (String.eqb k' k).
  - destruct (String.eqb_spec k k1) as [->|Hne]; cbn.
    + now destruct (String.eqb k' k1).
    + rewrite IH. destruct (String.eqb_spec k' k1) as [->|Hne'].
      * destruct (String.eqb_spec k1 k) as [->|_]; [now destruct Hne|reflexivity].
      * reflexivity.
Qed.

(** X10: storing and reading back.  After [d[k] = v] a lookup of [k] gives
    [v], and a lookup of any other key gives what it gave before. *)
Theorem dict_getitem_setitem (k k' : string) (v : handle_id) (d : dict) :
  dict_getitem k (dict_setitem k v d) = Some v /\
  (k' <> k -> dict_getitem k' (dict_setitem k v d) = dict_getitem k' d).
Proof.
  rewrite !dict_getitem_after_setitem, String.eqb_refl.
  split; [reflexivity|]. intros Hne.
  destruct (String.eqb_spec k' k) as [Heq|_]; [now destruct Hne|reflexivity].
Qed.

Lemma dict_display_acc (items acc : dict) :
  NoDup (dict_keys acc) ->
  NoDup (dict_keys (foldl (fun d kv => dict_setitem kv.1 kv.2 d) acc items)) /\
  forall k,
    dict_getitem k (foldl (fun d kv => dict_setitem kv.1 kv.2 d) acc items) =
      match dict_getitem k (reverse items) with
      | Some v => Some v
      | None => dict_getitem k acc
      end.
Proof.
  revert acc. induction items as [|[k1 v1] items IH]; intros acc Hacc.
  - split; [exact Hacc|reflexivity].
  - cbn [foldl]. destruct (IH (dict_setitem k1 v1 acc)) as [Hnd Hget].
    { now apply dict_setitem_NoDup. }
    split; [exact Hnd|]. intros k. rewrite Hget, reverse_cons, dict_getitem_app.
    destruct (dict_getitem k (reverse items)); [reflexivity|].
    cbn. rewrite dict_getitem_after_setitem. now destruct (String.eqb k k1).
Qed.

(** X9: whatever its items are, a dict display holds every key once, and
    a key written several times is bound to the value written last. *)
Theorem dict_display_last_wins (items : list (string * handle_id)) :
  NoDup (dict_keys (dict_display items)) /\
  forall k, dict_getitem k (dict_display items) = dict_getitem k (reverse items).
Proof.
  destruct (dict_display_acc items [] (NoDup_nil_2)) as [Hnd Hget].
  split; [exact Hnd|]. intros k. unfold dict_display. rewrite Hget.
  now destruct (dict_getitem k (reverse items)).
Qed.

(** X8: a dict display whose keys are pairwise distinct holds its items as
    they are written, in the order of the source text. *)
Theorem dict_display_distinct (items : list (string * handle_id)) :
  NoDup items.*1 -> dict_display items = items.
Proof.
  intros Hnd. unfold dict_display.
  enough (Hacc : forall acc : dict,
             NoDup (acc.*1 ++ items.*1) ->
             foldl (fun d kv => dict_setitem kv.1 kv.2 d) acc items = acc ++ items)
    by exact (Hacc [] Hnd).
  clear Hnd. induction items as [|[k1 v1] items IH]; intros acc Hnd.
  - cbn. now rewrite app_nil_r.
  - cbn [foldl]. cbn in Hnd.
    assert (Hk : k1 ∉ dict_keys acc).
    { apply NoDup_app in Hnd as (_ & Hdisj & _). intros Hin.
      apply (Hdisj k1 Hin). apply list_elem_of_here. }
    rewrite (dict_setitem_new _ _ _ Hk), IH.
    + now rewrite <- app_assoc.
    + rewrite fmap_app. cbn. now rewrite <- app_assoc.
Qed.

(** ** Sessions of wrapper calls *)

Section SessionProperties.

Context {Data : Type}.

Implicit Types (s t : store Data) (vh : ValueHandle Data).

(** An object found after an allocation is an older one, or the new one. *)
Lemma lookup_snoc_Some {A} (l : list A) (x y : A) (i : nat) :
  (l ++ [x]) !! i = Some y ->
  (i < length l /\ l !! i = Some y) \/ (i = length l /\ y = x).
Proof.
  rewrite lookup_app_Some, list_lookup_singleton_Some.
  intros [Hold|(Hle & Hi & ->)].
  - left. split; [now apply lookup_lt_Some in Hold|exact Hold].
  - right. split; [lia|reflexivity].
Qed.

(** What a call of a session does to the store. *)
Lemma wrapper_call_inv s s' :
  wrapper_call s s' ->
  exists (args : list handle_id) (X : handle_id) (hx : ValueHandle Data),
    length args = 31 /\
    args !! 0 = Some X /\
    Forall (fun a => a < length (handles s)) args /\
    handles s !! X = Some hx /\
    s' = {| handles :=
              handles s ++
                [ {| variant := MatrixCls; sds_context := sds_context hx;
                     materialized := None;
                     pending := Some (length (nodes s)) |} ];
            nodes :=
              nodes s ++
                [ {| operation := "sherlockPredict";
                     named_input_nodes := zip parameter_names args;
                     unnamed_input_nodes := [];
                     output_type := MATRIX |} ];
            attr_reads := attr_reads s ++ [(X, "sds_context")];
            executed := executed s |}.
Proof.
  intros [X ? ? ? ? ? ? ? ? ? ? ? ? ? ? ? ? ? ? ? ? ? ? ? ? ? ? ? ? ? ?
            s0 h s0' Hlive Hcall].
  apply sherlockPredict_inv in Hcall as (hx & HX & _ & ->).
  eexists _, X, hx. split; [|split; [|split; [exact Hlive|split; [exact HX|]]]];
    reflexivity.
Qed.

Lemma node_inputs_built (args : list handle_id) :
  length args = 31 ->
  node_inputs {| operation := "sherlockPredict";
                 named_input_nodes := zip parameter_names args;
                 unnamed_input_nodes := [];
                 output_type := MATRIX |} = args.
Proof.
  intros Hlen. unfold node_inputs, dict_values. cbn [named_input_nodes unnamed_input_nodes].
  rewrite app_nil_r. apply snd_zip. rewrite Hlen. reflexivity.
Qed.

(** One call keeps each invariant of the store. *)
Lemma wrapper_call_pending_live s s' :
  wrapper_call s s' -> pending_live s -> pending_live s'.
Proof.
  intros Hcall Hlive h vh n Hh Hp.
  apply wrapper_call_inv in Hcall as (args & X & hx & _ & _ & _ & _ & ->).
  cbn [handles nodes] in *. rewrite length_app. cbn.
  apply lookup_snoc_Some in Hh as [[_ Hh]|[_ ->]].
  - pose proof (Hlive h vh n Hh Hp). lia.
  - cbn in Hp. injection Hp as <-. lia.
Qed.

Lemma wrapper_call_inputs_older s s' :
  wrapper_call s s' -> pending_live s -> inputs_older s -> inputs_older s'.
Proof.
  intros Hcall Hlive Hold h vh n node Hh Hp Hn.
  apply wrapper_call_inv in Hcall as (args & X & hx & Hlen & _ & Hargs & _ & ->).
  cbn [handles nodes] in *.
  apply lookup_snoc_Some in Hh as [[_ Hh]|[-> ->]].
  - pose proof (Hlive h vh n Hh Hp) as Hlt.
    rewrite lookup_app_l in Hn by exact Hlt.
    exact (Hold h vh n node Hh Hp Hn).
  - cbn in Hp. injection Hp as <-. rewrite lookup_new in Hn.
    apply (inj Some) in Hn. subst node.
    rewrite (node_inputs_built args Hlen). exact Hargs.
Qed.

Lemma wrapper_call_owns_unique s s' :
  wrapper_call s s' -> pending_live s -> owns_unique s -> owns_unique s'.
Proof.
  intros Hcall Hlive Huniq h1 h2 v1 v2 n H1 H2 P1 P2.
  apply wrapper_call_inv in Hcall as (args & X & hx & _ & _ & _ & _ & ->).
  cbn [handles nodes] in *.
  apply lookup_snoc_Some in H1 as [[_ H1]|[-> ->]];
    apply lookup_snoc_Some in H2 as [[_ H2]|[-> ->]].
  - exact (Huniq h1 h2 v1 v2 n H1 H2 P1 P2).
  - cbn in P2. injection P2 as <-. pose proof (Hlive h1 v1 _ H1 P1). lia.
  - cbn in P1. injection P1 as <-. pose proof (Hlive h2 v2 _ H2 P2). lia.
  - reflexivity.
Qed.

Lemma wrapper_calls_pending_live s s' :
  rtc wrapper_call s s' -> pending_live s -> pending_live s'.
Proof.
  induction 1 as [|s1 s2 s3 Hstep _ IH]; [trivial|].
  intros Hlive. apply IH. exact (wrapper_call_pending_live _ _ Hstep Hlive).
Qed.


(** X2: k calls in a row append exactly k handles and k nodes to the store
    and change nothing else.  Each new handle is a Matrix handle without a
    value; the i-th new handle is owned by the i-th new node; each new node
    has the operator name, the 31 keys, no positional input and the Matrix
    tag.  Nothing is submitted to the engine, and the only attribute reads
    are the k reads of a context. *)
Theorem wrapper_calls_allocate (k : nat) s s' :
  nsteps wrapper_call k s s' ->
  exists (hs : list (ValueHandle Data)) (ns : list OperationNode),
    handles s' = handles s ++ hs /\ length hs = k /\
    nodes s' = nodes s ++ ns /\ length ns = k /\
    executed s' = executed s /\
    length (attr_reads s') = length (attr_reads s) + k /\
    (forall i vh,
        hs !! i = Some vh ->
        variant vh = MatrixCls /\ materialized vh = None /\
        pending vh = Some (length (nodes s) + i)) /\
    (forall i node,
        ns !! i = Some node ->
        operation node = "sherlockPredict" /\
        dict_keys (named_input_nodes node) = parameter_names /\
        unnamed_input_nodes node = [] /\
        output_type node = MATRIX).
Proof.
  induction 1 as [s|k s1 s2 s3 Hstep _ IH].
  - exists [], []. rewrite !app_nil_r.
    split; [reflexivity|]. split; [reflexivity|].
    split; [reflexivity|]. split; [reflexivity|].
    split; [reflexivity|]. split; [lia|].
    split; intros i x Hx; now rewrite lookup_nil in Hx.
  - destruct IH as (hs & ns & Hh & Hlh & Hn & Hln & He & Ha & Hhs & Hns).
    apply wrapper_call_inv in Hstep
      as (args & X & hx & Hlen & _ & _ & _ & ->).
    cbn [handles nodes executed attr_reads] in *.
    eexists (_ :: hs), (_ :: ns).
    rewrite Hh, Hn, <- !app_assoc. cbn [app].
    split; [reflexivity|]. split; [cbn; lia|].
    split; [reflexivity|]. split; [cbn; lia|].
    split; [exact He|].
    split; [rewrite Ha, length_app; cbn; lia|].
    split.
    + intros [|i] vh Hi.
      * apply (inj Some) in Hi. subst vh. cbn [variant materialized pending].
        split; [reflexivity|]. split; [reflexivity|]. f_equal. lia.
      * destruct (Hhs i vh Hi) as (Hv & Hm & Hp).
        split; [exact Hv|]. split; [exact Hm|].
        rewrite Hp, length_app. cbn [length]. f_equal. lia.
    + intros [|i] node Hi.
      * apply (inj Some) in Hi. subst node.
        cbn [operation named_input_nodes unnamed_input_nodes output_type].
        split; [reflexivity|]. split; [|split; reflexivity].
        unfold dict_keys. apply fst_zip. rewrite Hlen. reflexivity.
      * exact (Hns i node Hi).
Qed.

(** X3: calls introduce no context.  After any number of calls, every
    handle of the store has the context of a handle the session started
    with; a session whose handles share one context keeps sharing it. *)
Theorem wrapper_calls_contexts s s' :
  rtc wrapper_call s s' ->
  (forall h vh,
      handles s' !! h = Some vh ->
      exists h0 v0, handles s !! h0 = Some v0 /\ sds_context v0 = sds_context vh) /\
  (forall c,
      (forall h vh, handles s !! h = Some vh -> sds_context vh = c) ->
      (forall h vh, handles s' !! h = Some vh -> sds_context vh = c)).
Proof.
  intros Hsteps.
  assert (Hclosed : forall h vh,
             handles s' !! h = Some vh ->
             exists h0 v0, handles s !! h0 = Some v0 /\
                           sds_context v0 = sds_context vh).
  { induction Hsteps as [s|s1 s2 s3 Hstep _ IH]; intros h vh Hh.
    - now exists h, vh.
    - destruct (IH h vh Hh) as (h2 & v2 & H2 & Hc).
      apply wrapper_call_inv in Hstep as (args & X & hx & _ & _ & _ & HX & ->).
      cbn [handles] in H2.
      apply lookup_snoc_Some in H2 as [[_ H2]|[_ ->]].
      + now exists h2, v2.
      + exists X, hx. split; [exact HX|exact Hc]. }
  split; [exact Hclosed|].
  intros c Hc h vh Hh. destruct (Hclosed h vh Hh) as (h0 & v0 & H0 & <-).
  exact (Hc h0 v0 H0).
Qed.

(** X4: calls keep the invariant of value handles.  If every handle of the
    store has exactly one of its value and its owning node set, so has every
    handle after any number of calls. *)
Theorem wrapper_calls_consistent s s' :
  rtc wrapper_call s s' -> handles_consistent s -> handles_consistent s'.
Proof.
  induction 1 as [s|s1 s2 s3 Hstep _ IH]; [trivial|].
  intros Hinv. apply IH. intros h vh Hh.
  apply wrapper_call_inv in Hstep as (args & X & hx & _ & _ & _ & _ & ->).
  cbn [handles] in Hh.
  apply lookup_snoc_Some in Hh as [[_ Hh]|[_ ->]]; [exact (Hinv h vh Hh)|].
  reflexivity.
Qed.

(** X5: calls build a graph without cycles.  If every pending handle is
    owned by a node of the store whose inputs are all older than the handle,
    the same holds after any number of calls: the inputs of a new node exist
    before the handle the node owns. *)
Theorem wrapper_calls_acyclic s s' :
  rtc wrapper_call s s' ->
  pending_live s -> inputs_older s ->
  pending_live s' /\ inputs_older s'.
Proof.
  induction 1 as [s|s1 s2 s3 Hstep _ IH]; [now split|].
  intros Hlive Hold. apply IH.
  - exact (wrapper_call_pending_live _ _ Hstep Hlive).
  - exact (wrapper_call_inputs_older _ _ Hstep Hlive Hold).
Qed.

(** X6: calls never share a node between handles.  If every pending handle
    is owned by a node of the store and no node owns two handles, then after
    any number of calls no node owns two handles. *)
Theorem wrapper_calls_owns_unique s s' :
  rtc wrapper_call s s' ->
  pending_live s -> owns_unique s ->
  owns_unique s'.
Proof.
  induction 1 as [s|s1 s2 s3 Hstep _ IH]; [trivial|].
  intros Hlive Huniq. apply IH.
  - exact (wrapper_call_pending_live _ _ Hstep Hlive).
  - exact (wrapper_call_owns_unique _ _ Hstep Hlive Huniq).
Qed.

(** X7: calls compose.  The handle a call returns can be the first argument
    of a second call, whatever the other arguments of the second call are:
    the second call returns a handle in the context of the first X, its node
    has the first handle as the input named X, the first handle is still
    pending and nothing has been submitted to the engine. *)
Theorem sherlockPredict_chained
    (X
    cW1 cb1 cW2 cb2 cW3 cb3
    wW1 wb1 wW2 wb2 wW3 wb3
    pW1 pb1 pW2 pb2 pW3 pb3
    sW1 sb1 sW2 sb2 sW3 sb3
    fW1 fb1 fW2 fb2 fW3 fb3 : handle_id)
    (cW1' cb1' cW2' cb2' cW3' cb3'
    wW1' wb1' wW2' wb2' wW3' wb3'
    pW1' pb1' pW2' pb2' pW3' pb3'
    sW1' sb1' sW2' sb2' sW3' sb3'
    fW1' fb1' fW2' fb2' fW3' fb3' : handle_id) s h1 s1 :
  sherlockPredict X
    cW1 cb1 cW2 cb2 cW3 cb3
    wW1 wb1 wW2 wb2 wW3 wb3
    pW1 pb1 pW2 pb2 pW3 pb3
    sW1 sb1 sW2 sb2 sW3 sb3
    fW1 fb1 fW2 fb2 fW3 fb3 s = Ok (h1, s1) ->
  exists hx v1 h2 s2 v2 n2 node2,
    handles s !! X = Some hx /\
    sherlockPredict h1
      cW1' cb1' cW2' cb2' cW3' cb3'
      wW1' wb1' wW2' wb2' wW3' wb3'
      pW1' pb1' pW2' pb2' pW3' pb3'
      sW1' sb1' sW2' sb2' sW3' sb3'
      fW1' fb1' fW2' fb2' fW3' fb3' s1 = Ok (h2, s2) /\
    handles s2 !! h1 = Some v1 /\
    materialized v1 = None /\ isPending v1 = true /\
    handles s2 !! h2 = Some v2 /\
    sds_context v2 = sds_context hx /\
    pending v2 = Some n2 /\ nodes s2 !! n2 = Some node2 /\
    dict_getitem "X" (named_input_nodes node2) = Some h1 /\
    h1 < h2 /\
    executed s2 = executed s.
Proof.
  intros Hcall. apply sherlockPredict_inv in Hcall as (hx & HX & -> & ->).
  eexists hx, _, _, _, _, _, _. split; [exact HX|].
  split.
  { apply sherlockPredict_run. cbn [handles]. apply lookup_new. }
  cbn [handles nodes executed sds_context].
  split; [apply lookup_old, lookup_new|]. split; [reflexivity|].
  split; [reflexivity|]. split; [apply lookup_new|]. split; [reflexivity|].
  split; [reflexivity|]. split; [apply lookup_new|]. split; [reflexivity|].
  split; [rewrite length_app; cbn; lia|reflexivity].
Qed.

End SessionProperties.

(** ** The properties of sessions at the concrete sessions *)

(** The two calls of the concrete session: the example call, then the same
    call on the handle it returned. *)
Lemma session_first_call : wrapper_call session session_1.
Proof.
  apply (wrapper_call_intro
           0 1 2 3 4 5 6 7 8 9 10 11 12 13 14 15 16 17 18 19 20
           21 22 23 24 25 26 27 28 29 30 session 31 session_1).
  - apply (bool_decide_unpack _). vm_compute. exact I.
  - reflexivity.
Defined.

Lemma session_second_call : wrapper_call session_1 session_chain.
Proof.
  apply (wrapper_call_intro
           31 1 2 3 4 5 6 7 8 9 10 11 12 13 14 15 16 17 18 19 20
           21 22 23 24 25 26 27 28 29 30 session_1 32 session_chain).
  - apply (bool_decide_unpack _). vm_compute. exact I.
  - reflexivity.
Defined.

Lemma session_two_calls : nsteps wrapper_call 2 session session_chain.
Proof.
  apply (nsteps_l _ _ _ session_1); [exact session_first_call|].
  apply nsteps_once. exact session_second_call.
Defined.

Lemma session_calls : rtc wrapper_call session session_chain.
Proof.
  apply (rtc_l _ _ session_1); [exact session_first_call|].
  apply rtc_once. exact session_second_call.
Defined.

(** The concrete session starts with materialized leaves only. *)
Lemma session_leaves (h : handle_id) (vh : ValueHandle nat) :
  handles session !! h = Some vh -> exists d, vh = matrix_leaf 0 d.
Proof.
  intros Hh. apply list_lookup_fmap_Some in Hh as (d & -> & _). now exists d.
Defined.

Lemma session_consistent : handles_consistent session.
Proof.
  intros h vh Hh. destruct (session_leaves h vh Hh) as [d ->]. reflexivity.
Defined.

Lemma session_pending_live : pending_live session.
Proof.
  intros h vh n Hh Hp. destruct (session_leaves h vh Hh) as [d ->].
  discriminate Hp.
Defined.

Lemma session_inputs_older : inputs_older session.
Proof.
  intros h vh n node Hh Hp. destruct (session_leaves h vh Hh) as [d ->].
  discriminate Hp.
Defined.

Lemma session_owns_unique : owns_unique session.
Proof.
  intros h1 h2 v1 v2 n H1 _ P1. destruct (session_leaves h1 v1 H1) as [d ->].
  discriminate P1.
Defined.

Lemma wrapper_calls_allocate_witness :
  nsteps wrapper_call 2 session session_chain /\
  exists (hs : list (ValueHandle nat)) (ns : list OperationNode),
    handles session_chain = handles session ++ hs /\ length hs = 2 /\
    nodes session_chain = nodes session ++ ns /\ length ns = 2 /\
    executed session_chain = executed session /\
    length (attr_reads session_chain) = length (attr_reads session) + 2 /\
    (forall i vh,
        hs !! i = Some vh ->
        variant vh = MatrixCls /\ materialized vh = None /\
        pending vh = Some (length (nodes session) + i)) /\
    (forall i node,
        ns !! i = Some node ->
        operation node = "sherlockPredict" /\
        dict_keys (named_input_nodes node) = parameter_names /\
        unnamed_input_nodes node = [] /\
        output_type node = MATRIX).
Proof.
  split; [exact session_two_calls|].
  exact (wrapper_calls_allocate 2 session session_chain session_two_calls).
Defined.

Lemma wrapper_calls_contexts_witness :
  rtc wrapper_call session session_chain /\
  (forall h vh,
      handles session_chain !! h = Some vh ->
      exists h0 v0,
        handles session !! h0 = Some v0 /\ sds_context v0 = sds_context vh) /\
  (forall c,
      (forall h vh, handles session !! h = Some vh -> sds_context vh = c) ->
      (forall h vh, handles session_chain !! h = Some vh -> sds_context vh = c)).
Proof.
  split; [exact session_calls|].
  exact (wrapper_calls_contexts session session_chain session_calls).
Defined.

Lemma wrapper_calls_consistent_witness :
  rtc wrapper_call session session_chain /\
  handles_consistent session /\
  handles_consistent session_chain.
Proof.
  split; [exact session_calls|]. split; [exact session_consistent|].
  exact (wrapper_calls_consistent session session_chain
           session_calls session_consistent).
Defined.

Lemma wrapper_calls_acyclic_witness :
  rtc wrapper_call session session_chain /\
  pending_live session /\ inputs_older session /\
  pending_live session_chain /\ inputs_older session_chain.
Proof.
  split; [exact session_calls|]. split; [exact session_pending_live|].
  split; [exact session_inputs_older|].
  exact (wrapper_calls_acyclic session session_chain
           session_calls session_pending_live session_inputs_older).
Defined.

Lemma wrapper_calls_owns_unique_witness :
  rtc wrapper_call session session_chain /\
  pending_live session /\ owns_unique session /\
  owns_unique session_chain.
Proof.
  split; [exact session_calls|]. split; [exact session_pending_live|].
  split; [exact session_owns_unique|].
  exact (wrapper_calls_owns_unique session session_chain
           session_calls session_pending_live session_owns_unique).
Defined.

Lemma sherlockPredict_chained_witness :
  example_call session = Ok (31, session_1) /\
  exists hx v1 h2 s2 v2 n2 node2,
    handles session !! 0 = Some hx /\
    chained_call session_1 = Ok (h2, s2) /\
    handles s2 !! 31 = Some v1 /\
    materialized v1 = None /\ isPending v1 = true /\
    handles s2 !! h2 = Some v2 /\
    sds_context v2 = sds_context hx /\
    pending v2 = Some n2 /\ nodes s2 !! n2 = Some node2 /\
    dict_getitem "X" (named_input_nodes node2) = Some 31 /\
    31 < h2 /\
    executed s2 = executed session.
Proof.
  split; [reflexivity|].
  exact (sherlockPredict_chained
           0 1 2 3 4 5 6 7 8 9 10 11 12 13 14 15 16 17 18 19 20
           21 22 23 24 25 26 27 28 29 30
           1 2 3 4 5 6 7 8 9 10 11 12 13 14 15 16 17 18 19 20
           21 22 23 24 25 26 27 28 29 30
           session 31 session_1 eq_refl).
Defined.

Lemma dict_display_distinct_witness :
  NoDup [ "X"; "cW1"; "cb1" ] /\
  dict_display [ ("X", 0); ("cW1", 1); ("cb1", 2) ] =
    [ ("X", 0); ("cW1", 1); ("cb1", 2) ].
Proof.
  assert (Hnd : NoDup [ "X"; "cW1"; "cb1" ]).
  { apply (bool_decide_unpack _). vm_compute. exact I. }
  split; [exact Hnd|].
  exact (dict_display_distinct [ ("X", 0); ("cW1", 1); ("cb1", 2) ] Hnd).
Defined.
